(** * Toy robot simulator: a shallow embedding of [toy_robot_simulator.py]

    The robot object of the program is a record with the four attributes
    the class [ToyRobot] has ([_x], [_y], [_direction], [_placed]); its
    methods are computations in a small state-and-exception monad whose
    state is the robot.  Python integers are [Z]; Python strings are Rocq
    strings, one character per code point in the range U+0000..U+00FF. *)

From Stdlib Require Import ZArith Bool List String Ascii Lia DecimalString.
Import ListNotations.
Local Open Scope Z_scope.
Local Open Scope string_scope.

(** ** Built-ins of the language that the program calls *)

Module Py.

(** The exceptions that the operations used by the program can raise. *)
Inductive exn : Type :=
| IndexError
| ValueError
| KeyError
| TypeError
| AttributeError.

(** [str.isspace] on one character, for code points below 256:
    TAB..CR, FS..US, SPACE, NEL and NBSP. *)
Definition isspace (c : ascii) : bool :=
  let n := nat_of_ascii c in
  ((9 <=? n) && (n <=? 13) || (28 <=? n) && (n <=? 32)
   || (n =? 133) || (n =? 160))%nat.

(** The pieces of [s] between the characters that satisfy [sep]; the
    list is never empty and keeps empty pieces. *)
Fixpoint pieces (sep : ascii -> bool) (s : string) : list string :=
  match s with
  | EmptyString => [EmptyString]
  | String c s' =>
      if sep c then EmptyString :: pieces sep s'
      else match pieces sep s' with
           | p :: ps => String c p :: ps
           | [] => [String c EmptyString]
           end
  end.

Definition nonempty (s : string) : bool :=
  match s with EmptyString => false | String _ _ => true end.

(** [s.split()]: the maximal runs of non-whitespace characters. *)
Definition split (s : string) : list string :=
  filter nonempty (pieces isspace s).

(** [s.split(sep)] for a one-character separator. *)
Definition split_on (sep : ascii) (s : string) : list string :=
  pieces (Ascii.eqb sep) s.

(** The white space that [int] skips at both ends of its argument; FS..US
    are white space for [split] but not for [int]. *)
Definition int_space (c : ascii) : bool :=
  let n := nat_of_ascii c in
  ((9 <=? n) && (n <=? 13) || (n =? 32) || (n =? 133) || (n =? 160))%nat.

Fixpoint lstrip (s : string) : string :=
  match s with
  | String c s' => if int_space c then lstrip s' else s
  | EmptyString => EmptyString
  end.

Fixpoint rstrip (s : string) : string :=
  match s with
  | EmptyString => EmptyString
  | String c s' =>
      match rstrip s' with
      | EmptyString => if int_space c then EmptyString else String c EmptyString
      | t => String c t
      end
  end.

Definition is_digit (c : ascii) : bool :=
  let n := nat_of_ascii c in ((48 <=? n) && (n <=? 57))%nat.

Definition digit_value (c : ascii) : Z := Z.of_nat (nat_of_ascii c) - 48.

(** The rest of a numeral after its first digit: digits, each optionally
    preceded by one underscore.  Returns the value and the number of
    digits read. *)
Fixpoint numeral_tail (acc : Z) (count : nat) (s : string) : option (Z * nat) :=
  match s with
  | EmptyString => Some (acc, count)
  | String c s' =>
      if is_digit c then numeral_tail (10 * acc + digit_value c) (S count) s'
      else if Ascii.eqb c "_" then
        match s' with
        | String d s'' =>
            if is_digit d
            then numeral_tail (10 * acc + digit_value d) (S count) s''
            else None
        | EmptyString => None
        end
      else None
  end.

Definition numeral (s : string) : option (Z * nat) :=
  match s with
  | String c s' => if is_digit c then numeral_tail (digit_value c) 1 s' else None
  | EmptyString => None
  end.

(** The interpreter refuses to convert between [int] and [str] when the
    numeral has more than [sys.get_int_max_str_digits()] digits; the limit
    is only looked at above 640 digits and 0 switches it off. *)
Definition over_limit (max_str_digits digits : nat) : bool :=
  ((640 <? digits) && (0 <? max_str_digits) && (max_str_digits <? digits))%nat.

Section Conversions.

Variable max_str_digits : nat.

(** [int(s)] in base 10; [None] stands for [ValueError]. *)
Definition int (s : string) : option Z :=
  let t := rstrip (lstrip s) in
  let '(negative, body) :=
    match t with
    | String c t' =>
        if Ascii.eqb c "-" then (true, t')
        else if Ascii.eqb c "+" then (false, t')
        else (false, t)
    | EmptyString => (false, t)
    end in
  match numeral body with
  | Some (v, digits) =>
      if over_limit max_str_digits digits then None
      else Some (if negative then - v else v)
  | None => None
  end.

(** [str(z)], which is also how an f-string formats an [int]; [None]
    stands for [ValueError]. *)
Definition str (z : Z) : option string :=
  if over_limit max_str_digits
       (String.length (NilZero.string_of_int (Z.to_int (Z.abs z))))
  then None
  else Some (NilZero.string_of_int (Z.to_int z)).

End Conversions.

End Py.

(** ** Data model *)

(** [class Direction(Enum)] with its values 0..3. *)
Inductive Direction : Type := NORTH | EAST | SOUTH | WEST.

(** [d.value] *)
Definition value (d : Direction) : Z :=
  match d with NORTH => 0 | EAST => 1 | SOUTH => 2 | WEST => 3 end.

(** [d.name] *)
Definition name (d : Direction) : string :=
  match d with
  | NORTH => "NORTH" | EAST => "EAST" | SOUTH => "SOUTH" | WEST => "WEST"
  end.

(** [Direction(v)], the member of value [v]; [None] stands for [ValueError]. *)
Definition Direction_of_value (v : Z) : option Direction :=
  if (v =? 0)%Z then Some NORTH
  else if (v =? 1)%Z then Some EAST
  else if (v =? 2)%Z then Some SOUTH
  else if (v =? 3)%Z then Some WEST
  else None.

(** [Direction[s]], the member of name [s]; [None] stands for [KeyError]. *)
Definition Direction_of_name (s : string) : option Direction :=
  if s =? "NORTH" then Some NORTH
  else if s =? "EAST" then Some EAST
  else if s =? "SOUTH" then Some SOUTH
  else if s =? "WEST" then Some WEST
  else None.

(** The attributes of a [ToyRobot] object; [None] is Python's [None]. *)
Record ToyRobot : Type := mkRobot {
  _x : option Z;
  _y : option Z;
  _direction : option Direction;
  _placed : bool
}.

(** [ToyRobot()], the object that [__init__] leaves. *)
Definition init : ToyRobot :=
  {| _x := None; _y := None; _direction := None; _placed := false |}.

(** ** Computations on a robot: state and exceptions *)

Inductive outcome (A : Type) : Type :=
| Return (a : A)
| Raise (e : Py.exn).
Arguments Return {A} a.
Arguments Raise {A} e.

(** A computation gets the robot and gives back the robot it leaves,
    together with the value it returns or the exception it raises. *)
Definition M (A : Type) : Type := ToyRobot -> ToyRobot * outcome A.

Definition ret {A} (a : A) : M A := fun self => (self, Return a).

Definition raise {A} (e : Py.exn) : M A := fun self => (self, Raise e).

Definition bind {A B} (c : M A) (k : A -> M B) : M B :=
  fun self =>
    match c self with
    | (self', Return a) => k a self'
    | (self', Raise e) => (self', Raise e)
    end.

(** [try: c  except ...: h]; the handler decides which exceptions it takes. *)
Definition try_except {A} (c : M A) (h : Py.exn -> M A) : M A :=
  fun self =>
    match c self with
    | (self', Return a) => (self', Return a)
    | (self', Raise e) => h e self'
    end.

Definition get : M ToyRobot := fun self => (self, Return self).

Definition put (r : ToyRobot) : M unit := fun _ => (r, Return tt).

(** A partial built-in, raising [e] where it has no result. *)
Definition or_raise {A} (e : Py.exn) (o : option A) : M A :=
  match o with Some a => ret a | None => raise e end.

Declare Scope robot_scope.
Delimit Scope robot_scope with robot.
Notation "x <- c ;; k" := (bind c (fun x => k))
  (at level 61, c at next level, right associativity) : robot_scope.
Notation "' p <- c ;; k" := (bind c (fun x => let 'p := x in k))
  (at level 61, p pattern, c at next level, right associativity) : robot_scope.
Notation "c ;; k" := (bind c (fun _ => k))
  (at level 61, right associativity) : robot_scope.
Local Open Scope robot_scope.

(** The robot a computation leaves, and what it returns or raises. *)
Definition state_after {A} (c : M A) (r : ToyRobot) : ToyRobot := fst (c r).
Definition result_of {A} (c : M A) (r : ToyRobot) : outcome A := snd (c r).

(** ** The class [ToyRobot] *)

(** [is_valid_position], a static method: it does not get the robot. *)
Definition is_valid_position (x y : Z) : bool :=
  ((0 <=? x) && (x <? 5) && ((0 <=? y) && (y <? 5)))%Z.

Definition place (x y : Z) (direction : Direction) : M unit :=
  if is_valid_position x y then
    put {| _x := Some x; _y := Some y;
           _direction := Some direction; _placed := true |}
  else ret tt.

(** The table [moves] of [_get_new_position]. *)
Definition moves (d : Direction) : Z * Z :=
  match d with
  | NORTH => (0, 1)
  | EAST => (1, 0)
  | SOUTH => (0, -1)
  | WEST => (-1, 0)
  end.

(** [moves[self._direction]] has no entry for [None]; [None + dx] is a
    type error. *)
Definition _get_new_position : M (Z * Z) :=
  self <- get ;;
  '(dx, dy) <- or_raise Py.KeyError (option_map moves (_direction self)) ;;
  x <- or_raise Py.TypeError (_x self) ;;
  y <- or_raise Py.TypeError (_y self) ;;
  ret (x + dx, y + dy).

Definition move : M unit :=
  self <- get ;;
  if negb (_placed self) then ret tt
  else
    '(new_x, new_y) <- _get_new_position ;;
    if is_valid_position new_x new_y then
      self <- get ;;
      put {| _x := Some new_x; _y := Some new_y;
             _direction := _direction self; _placed := _placed self |}
    else ret tt.

Definition rotate (clockwise : bool) : M unit :=
  self <- get ;;
  if _placed self then
    let rotation := if clockwise then 1 else -1 in
    d <- or_raise Py.AttributeError (_direction self) ;;
    d' <- or_raise Py.ValueError (Direction_of_value ((value d + rotation) mod 4)) ;;
    self <- get ;;
    put {| _x := _x self; _y := _y self;
           _direction := Some d'; _placed := _placed self |}
  else ret tt.

Section Interpreter.

(** [sys.get_int_max_str_digits()] of the interpreter that runs the
    program (4300 unless configured; 0 for no limit). *)
Variable max_str_digits : nat.

(** How an f-string shows an attribute that holds an [int] or [None]. *)
Definition format_coordinate (v : option Z) : M string :=
  match v with
  | Some z => or_raise Py.ValueError (Py.str max_str_digits z)
  | None => ret "None"
  end.

Definition report : M string :=
  self <- get ;;
  if _placed self then
    sx <- format_coordinate (_x self) ;;
    sy <- format_coordinate (_y self) ;;
    d <- or_raise Py.AttributeError (_direction self) ;;
    ret (sx ++ "," ++ sy ++ "," ++ name d)
  else ret "Robot not placed on the table".

(** ** The command interpreter *)

(** [parts[i]] *)
Definition item (parts : list string) (i : nat) : M string :=
  or_raise Py.IndexError (nth_error parts i).

(** [x, y, direction = fields] *)
Definition unpack3 (fields : list string) : M (string * string * string) :=
  match fields with
  | [a; b; c] => ret (a, b, c)
  | _ => raise Py.ValueError
  end.

Definition process_command (command : string) : M (option string) :=
  let parts := Py.split command in
  tag <- item parts 0 ;;
  if tag =? "PLACE" then
    try_except
      (arg <- item parts 1 ;;
       '(x, y, direction) <- unpack3 (Py.split_on "," arg) ;;
       xi <- or_raise Py.ValueError (Py.int max_str_digits x) ;;
       yi <- or_raise Py.ValueError (Py.int max_str_digits y) ;;
       d <- or_raise Py.KeyError (Direction_of_name direction) ;;
       place xi yi d ;;
       ret None)
      (fun e =>
         match e with
         | Py.ValueError | Py.IndexError | Py.KeyError =>
             ret (Some "Invalid PLACE command")
         | _ => raise e
         end)
  else if tag =? "MOVE" then move ;; ret None
  else if tag =? "LEFT" then rotate false ;; ret None
  else if tag =? "RIGHT" then rotate true ;; ret None
  else if tag =? "REPORT" then s <- report ;; ret (Some s)
  else ret (Some "Invalid command").

(** The robot after the caller has fed [commands] one by one to
    [process_command], and what each call returned or raised. *)
Fixpoint process_all (commands : list string) (r : ToyRobot)
  : ToyRobot * list (outcome (option string)) :=
  match commands with
  | [] => (r, [])
  | c :: cs =>
      let '(r', o) := process_command c r in
      let '(r'', os) := process_all cs r' in
      (r'', o :: os)
  end.

End Interpreter.

(** ** Vocabulary of the specification *)

(** A cell of the 5 x 5 table. *)
Definition on_table (x y : Z) : Prop := 0 <= x <= 4 /\ 0 <= y <= 4.

(** A placed robot at [(x, y)] facing [d]. *)
Definition robot_at (x y : Z) (d : Direction) : ToyRobot :=
  {| _x := Some x; _y := Some y; _direction := Some d; _placed := true |}.

(** The state invariant: a placed robot has a position on the table and an
    orientation. *)
Definition invariant (r : ToyRobot) : Prop :=
  _placed r = true ->
  exists x y d,
    _x r = Some x /\ _y r = Some y /\ _direction r = Some d /\ on_table x y.

(** The cell one unit ahead of [(x, y)] in direction [d]. *)
Definition ahead (d : Direction) (x y : Z) : Z * Z :=
  match d with
  | NORTH => (x, y + 1)
  | EAST => (x + 1, y)
  | SOUTH => (x, y - 1)
  | WEST => (x - 1, y)
  end.

(** The cyclic order NORTH, EAST, SOUTH, WEST and its reverse. *)
Definition turn_right (d : Direction) : Direction :=
  match d with NORTH => EAST | EAST => SOUTH | SOUTH => WEST | WEST => NORTH end.

Definition turn_left (d : Direction) : Direction :=
  match d with NORTH => WEST | WEST => SOUTH | SOUTH => EAST | EAST => NORTH end.

(** The character of a one-digit number in base 10. *)
Definition digit_char (z : Z) : ascii := ascii_of_nat (48 + Z.to_nat z).

(** What the argument of a PLACE command stands for: three comma-separated
    fields, two integers and the name of an orientation. *)
Definition place_argument (max_str_digits : nat) (arg : string)
  : option (Z * Z * Direction) :=
  match Py.split_on "," arg with
  | [sx; sy; sd] =>
      match Py.int max_str_digits sx, Py.int max_str_digits sy,
            Direction_of_name sd with
      | Some x, Some y, Some d => Some (x, y, d)
      | _, _, _ => None
      end
  | _ => None
  end.

(** [arg] reads as the placement [(x, y, d)]: exactly three fields, the
    first two accepted by [int] and the third the name of [d]. *)
Definition reads_as (max_str_digits : nat) (arg : string)
  (x y : Z) (d : Direction) : Prop :=
  exists sx sy,
    Py.split_on "," arg = [sx; sy; name d]
    /\ Py.int max_str_digits sx = Some x
    /\ Py.int max_str_digits sy = Some y.

(** The operations a caller can apply to a robot. *)
Inductive operation : Type :=
| Place (x y : Z) (d : Direction)
| Move
| Rotate (clockwise : bool)
| Report
| Command (line : string).

Definition perform (max_str_digits : nat) (o : operation) (r : ToyRobot)
  : ToyRobot :=
  match o with
  | Place x y d => state_after (place x y d) r
  | Move => state_after move r
  | Rotate b => state_after (rotate b) r
  | Report => state_after (report max_str_digits) r
  | Command line => state_after (process_command max_str_digits line) r
  end.

Definition perform_all (max_str_digits : nat) (os : list operation)
  (r : ToyRobot) : ToyRobot :=
  fold_left (fun r o => perform max_str_digits o r) os r.

(** ** The read loop [main] *)

Module Text.

(** [s.strip()]: white space, as [str.isspace] has it, removed at both
    ends. *)
Fixpoint lstrip (s : string) : string :=
  match s with
  | String c s' => if Py.isspace c then lstrip s' else s
  | EmptyString => EmptyString
  end.

Fixpoint rstrip (s : string) : string :=
  match s with
  | EmptyString => EmptyString
  | String c s' =>
      match rstrip s' with
      | EmptyString => if Py.isspace c then EmptyString else String c EmptyString
      | t => String c t
      end
  end.

Definition strip (s : string) : string := rstrip (lstrip s).

(** The upper-case form of one character: a..z and the accented small
    letters U+00E0..U+00FE (but not the division sign U+00F7) move down by
    32, and U+00DF becomes two letters.  The upper-case forms of U+00B5 and
    U+00FF are U+039C and U+0178, outside the range of this model: these
    two characters are kept as they are, and what is proved of [main]
    is proved of lines without them ([in_range]). *)
Definition upper_char (c : ascii) : string :=
  let n := nat_of_ascii c in
  if ((97 <=? n) && (n <=? 122)
      || (224 <=? n) && (n <=? 254) && negb (n =? 247))%nat
  then String (ascii_of_nat (n - 32)) EmptyString
  else if (n =? 223)%nat then "SS"
  else String c EmptyString.

(** [s.upper()] *)
Fixpoint upper (s : string) : string :=
  match s with
  | EmptyString => EmptyString
  | String c s' => upper_char c ++ upper s'
  end.

(** The lines whose upper-case form stays within U+0000..U+00FF. *)
Fixpoint in_range (s : string) : bool :=
  match s with
  | EmptyString => true
  | String c s' =>
      negb (nat_of_ascii c =? 181)%nat && negb (nat_of_ascii c =? 255)%nat
      && in_range s'
  end.

End Text.

(** How a run of [main] ends: the line EXIT, the end of the input (where
    [input()] raises [EOFError]), or an exception out of
    [process_command]. *)
Inductive ending : Type :=
| Exit
| EndOfInput
| Uncaught (e : Py.exn).

(** What a run leaves: the robot, the lines printed, and how it ended. *)
Record run : Type := mkRun {
  robot : ToyRobot;
  printed : list string;
  ended : ending
}.

Definition prompt : string :=
  "Enter commands (PLACE X,Y,F | MOVE | LEFT | RIGHT | REPORT | EXIT):".

Section Program.

Variable max_str_digits : nat.

(** [input().strip().upper()] of one line of input. *)
Definition command_of (line : string) : string :=
  Text.upper (Text.strip line).

(** [if result: print(result)]: [None] and the empty string print
    nothing. *)
Definition print_result (result : option string) : list string :=
  match result with
  | Some s => if Py.nonempty s then [s] else []
  | None => []
  end.

(** The [while True] loop of [main] on the lines that [input()] will
    give, from the robot [r]. *)
Fixpoint main_loop (lines : list string) (r : ToyRobot) : run :=
  match lines with
  | [] => mkRun r [] EndOfInput
  | line :: lines' =>
      let command := command_of line in
      if command =? "EXIT" then mkRun r [] Exit
      else
        match process_command max_str_digits command r with
        | (r', Return result) =>
            let rest := main_loop lines' r' in
            mkRun (robot rest) (print_result result ++ printed rest)
              (ended rest)
        | (r', Raise e) => mkRun r' [] (Uncaught e)
        end
  end.

Definition main (lines : list string) : run :=
  let rest := main_loop lines init in
  mkRun (robot rest) (prompt :: printed rest) (ended rest).

(** The lines at which the loop stops: EXIT, and those without a token. *)
Definition is_exit (line : string) : bool := command_of line =? "EXIT".

Definition is_blank (line : string) : bool :=
  match Py.split (command_of line) with [] => true | _ :: _ => false end.

End Program.

(** The lines that [main] can print. *)
Definition report_line (s : string) : Prop :=
  exists x y d,
    on_table x y
    /\ s = String (digit_char x) ("," ++ String (digit_char y) ("," ++ name d)).

Definition output_line (s : string) : Prop :=
  s = prompt
  \/ s = "Invalid command"
  \/ s = "Invalid PLACE command"
  \/ s = "Robot not placed on the table"
  \/ report_line s.

(** Unfolds the plumbing of a computation. *)
Ltac run :=
  unfold state_after, result_of, bind, get, put, ret, raise, or_raise,
    try_except; cbn [fst snd].

(** A line that is empty or all white space. *)
Fixpoint all_space (s : string) : bool :=
  match s with
  | EmptyString => true
  | String c s' => Py.isspace c && all_space s'
  end.

(** A line that reads EXIT once stripped and put in upper case. *)
Definition exit_line (line : string) : bool :=
  Text.upper (Text.strip line) =? "EXIT".

(** A line that asks for a move, a turn or a placement that can be read:
    its first token, once the line is stripped and put in upper case, is
    MOVE, LEFT or RIGHT, or it is PLACE followed by a token that reads as a
    placement. *)
Definition silent_line (max_str_digits : nat) (line : string) : Prop :=
  exists tag rest,
    Py.split (Text.upper (Text.strip line)) = tag :: rest
    /\ (In tag ["MOVE"; "LEFT"; "RIGHT"]
        \/ (tag = "PLACE"
            /\ exists arg more x y d,
                 rest = arg :: more /\ reads_as max_str_digits arg x y d)).

(** The 25 cells of the table, one case each, from [H : on_table x y]. *)
Ltac each_cell x y H :=
  let C := fresh "C" in
  assert ((x = 0 \/ x = 1 \/ x = 2 \/ x = 3 \/ x = 4)
          /\ (y = 0 \/ y = 1 \/ y = 2 \/ y = 3 \/ y = 4)) as C
    by (unfold on_table in H; lia);
  clear H;
  destruct C as [[-> | [-> | [-> | [-> | ->]]]] [-> | [-> | [-> | [-> | ->]]]]].

(** ** The scenarios of the specification, run on the model *)

Example scenario_move :
  snd (process_all 4300 ["PLACE 0,0,NORTH"; "MOVE"; "REPORT"] init)
  = [Return None; Return None; Return (Some "0,1,NORTH")].
Proof. reflexivity. Qed.

Example scenario_left :
  snd (process_all 4300 ["PLACE 0,0,NORTH"; "LEFT"; "REPORT"] init)
  = [Return None; Return None; Return (Some "0,0,WEST")].
Proof. reflexivity. Qed.

Example scenario_path :
  snd (process_all 4300
         ["PLACE 1,2,EAST"; "MOVE"; "MOVE"; "LEFT"; "MOVE"; "REPORT"] init)
  = [Return None; Return None; Return None; Return None; Return None;
     Return (Some "3,3,NORTH")].
Proof. reflexivity. Qed.

Example scenario_unplaced :
  snd (process_all 4300 ["MOVE"; "REPORT"] init)
  = [Return None; Return (Some "Robot not placed on the table")].
Proof. reflexivity. Qed.

Example scenario_off_table :
  snd (process_all 4300 ["PLACE 5,5,NORTH"; "REPORT"] init)
  = [Return None; Return (Some "Robot not placed on the table")].
Proof. reflexivity. Qed.

Example scenario_bad_name :
  snd (process_all 4300 ["PLACE 1,1,NORTHX"; "REPORT"] init)
  = [Return (Some "Invalid PLACE command");
     Return (Some "Robot not placed on the table")].
Proof. reflexivity. Qed.

(** ** The robot's methods *)

Lemma is_valid_position_true (x y : Z) :
  is_valid_position x y = true <-> on_table x y.
Proof. unfold is_valid_position, on_table. lia. Qed.

Lemma is_valid_position_false (x y : Z) :
  is_valid_position x y = false <-> ~ on_table x y.
Proof.
  rewrite <- is_valid_position_true.
  destruct (is_valid_position x y); split; congruence.
Qed.

Lemma place_valid (r : ToyRobot) (x y : Z) (d : Direction) :
  is_valid_position x y = true -> place x y d r = (robot_at x y d, Return tt).
Proof. intros H. unfold place. rewrite H. reflexivity. Qed.

Lemma place_invalid (r : ToyRobot) (x y : Z) (d : Direction) :
  is_valid_position x y = false -> place x y d r = (r, Return tt).
Proof. intros H. unfold place. rewrite H. reflexivity. Qed.

Lemma place_returns (r : ToyRobot) (x y : Z) (d : Direction) :
  snd (place x y d r) = Return tt.
Proof. unfold place. destruct (is_valid_position x y); reflexivity. Qed.

Lemma ahead_moves (d : Direction) (x y : Z) :
  ahead d x y = (x + fst (moves d), y + snd (moves d)).
Proof. destruct d; cbn; f_equal; lia. Qed.

Lemma move_placed (x y : Z) (d : Direction) :
  move (robot_at x y d)
  = (if is_valid_position (fst (ahead d x y)) (snd (ahead d x y))
     then robot_at (fst (ahead d x y)) (snd (ahead d x y)) d
     else robot_at x y d, Return tt).
Proof.
  rewrite ahead_moves. unfold move, _get_new_position, robot_at. run. cbn.
  destruct (moves d) as [dx dy]. cbn.
  destruct (is_valid_position (x + dx) (y + dy)); reflexivity.
Qed.

Lemma move_unplaced (r : ToyRobot) :
  _placed r = false -> move r = (r, Return tt).
Proof. intros H. unfold move. run. rewrite H. reflexivity. Qed.

Lemma value_turn_right (d : Direction) :
  Direction_of_value ((value d + 1) mod 4) = Some (turn_right d).
Proof. destruct d; reflexivity. Qed.

Lemma value_turn_left (d : Direction) :
  Direction_of_value ((value d + -1) mod 4) = Some (turn_left d).
Proof. destruct d; reflexivity. Qed.

Lemma rotate_placed (ox oy : option Z) (d : Direction) (clockwise : bool) :
  rotate clockwise (mkRobot ox oy (Some d) true)
  = (mkRobot ox oy (Some (if clockwise then turn_right d else turn_left d)) true,
     Return tt).
Proof.
  unfold rotate. run. cbn.
  destruct clockwise;
    [rewrite value_turn_right | rewrite value_turn_left]; reflexivity.
Qed.

Lemma rotate_unplaced (r : ToyRobot) (clockwise : bool) :
  _placed r = false -> rotate clockwise r = (r, Return tt).
Proof. intros H. unfold rotate. run. rewrite H. reflexivity. Qed.

(** Neither [move] nor [rotate] nor [report] touches anything but what it
    is meant to change, also when it raises. *)
Lemma move_frame (r : ToyRobot) :
  _direction (state_after move r) = _direction r
  /\ _placed (state_after move r) = _placed r.
Proof.
  unfold move, _get_new_position. run.
  destruct r as [ox oy od p]; cbn.
  destruct p; cbn; [|auto].
  destruct od as [d|]; cbn; [|auto].
  destruct (moves d) as [dx dy].
  destruct ox as [x|]; cbn; [|auto].
  destruct oy as [y|]; cbn; [|auto].
  destruct (is_valid_position (x + dx) (y + dy)); cbn; auto.
Qed.

Lemma rotate_frame (clockwise : bool) (r : ToyRobot) :
  _x (state_after (rotate clockwise) r) = _x r
  /\ _y (state_after (rotate clockwise) r) = _y r
  /\ _placed (state_after (rotate clockwise) r) = _placed r.
Proof.
  unfold state_after. destruct r as [ox oy od p]. destruct p.
  - destruct od as [d|].
    + rewrite rotate_placed. cbn. auto.
    + unfold rotate. run. cbn. auto.
  - rewrite rotate_unplaced by reflexivity. cbn. auto.
Qed.

Lemma then_ret_state {A B} (c : M A) (f : A -> B) (r : ToyRobot) :
  state_after (a <- c ;; ret (f a)) r = state_after c r.
Proof. run. destruct (c r) as [r' [a|e]]; reflexivity. Qed.

Section Properties.

Variable max_str_digits : nat.

Lemma format_coordinate_state (v : option Z) (r : ToyRobot) :
  fst (format_coordinate max_str_digits v r) = r.
Proof.
  unfold format_coordinate. destruct v as [z|]; [|reflexivity].
  destruct (Py.str max_str_digits z); reflexivity.
Qed.

Lemma report_state (r : ToyRobot) :
  state_after (report max_str_digits) r = r.
Proof.
  unfold report. run. destruct (_placed r); [|reflexivity].
  pose proof (format_coordinate_state (_x r) r) as Hx.
  destruct (format_coordinate max_str_digits (_x r) r) as [r1 [sx|e]];
    cbn in Hx; subst r1; [|reflexivity].
  pose proof (format_coordinate_state (_y r) r) as Hy.
  destruct (format_coordinate max_str_digits (_y r) r) as [r2 [sy|e]];
    cbn in Hy; subst r2; [|reflexivity].
  destruct (_direction r); reflexivity.
Qed.

Lemma report_unplaced (r : ToyRobot) :
  _placed r = false ->
  report max_str_digits r = (r, Return "Robot not placed on the table").
Proof. intros H. unfold report. run. rewrite H. reflexivity. Qed.

(** A number of one digit is never over the limit. *)
Lemma str_digit (z : Z) :
  0 <= z <= 4 ->
  Py.str max_str_digits z = Some (String (digit_char z) EmptyString).
Proof.
  intros H.
  assert (z = 0 \/ z = 1 \/ z = 2 \/ z = 3 \/ z = 4) as Hz by lia.
  destruct Hz as [-> | [-> | [-> | [-> | ->]]]]; reflexivity.
Qed.

Lemma report_placed (x y : Z) (d : Direction) :
  on_table x y ->
  report max_str_digits (robot_at x y d)
  = (robot_at x y d,
     Return (String (digit_char x)
               ("," ++ String (digit_char y) ("," ++ name d)))).
Proof.
  intros [Hx Hy]. unfold report, format_coordinate, robot_at. run. cbn.
  rewrite (str_digit x Hx), (str_digit y Hy). reflexivity.
Qed.

(** The PLACE branch of the interpreter, as a function of the tokens
    that follow the tag. *)
Lemma process_place (command : string) (rest : list string) (r : ToyRobot) :
  Py.split command = "PLACE" :: rest ->
  process_command max_str_digits command r
  = match rest with
    | arg :: _ =>
        match place_argument max_str_digits arg with
        | Some (x, y, d) => (state_after (place x y d) r, Return None)
        | None => (r, Return (Some "Invalid PLACE command"))
        end
    | [] => (r, Return (Some "Invalid PLACE command"))
    end.
Proof.
  intros H. unfold process_command, item. rewrite H. run. cbn.
  destruct rest as [|arg more]; cbn; [reflexivity|].
  unfold place_argument, unpack3.
  destruct (Py.split_on "," arg) as [|sx [|sy [|sd [|extra fields]]]];
    cbn; try reflexivity.
  destruct (Py.int max_str_digits sx) as [x|]; cbn; [|reflexivity].
  destruct (Py.int max_str_digits sy) as [y|]; cbn; [|reflexivity].
  destruct (Direction_of_name sd) as [d|]; cbn; [|reflexivity].
  pose proof (place_returns r x y d) as Hp.
  destruct (place x y d r) as [r' o]. cbn in Hp. subst o. reflexivity.
Qed.

Lemma Direction_of_name_spec (s : string) (d : Direction) :
  Direction_of_name s = Some d <-> s = name d.
Proof.
  unfold Direction_of_name. split.
  - destruct (String.eqb_spec s "NORTH") as [->|_]; [intros [= <-]; reflexivity|].
    destruct (String.eqb_spec s "EAST") as [->|_]; [intros [= <-]; reflexivity|].
    destruct (String.eqb_spec s "SOUTH") as [->|_]; [intros [= <-]; reflexivity|].
    destruct (String.eqb_spec s "WEST") as [->|_]; [intros [= <-]; reflexivity|].
    discriminate.
  - intros ->. destruct d; reflexivity.
Qed.

Lemma place_argument_spec (arg : string) (x y : Z) (d : Direction) :
  place_argument max_str_digits arg = Some (x, y, d)
  <-> reads_as max_str_digits arg x y d.
Proof.
  unfold place_argument, reads_as. split.
  - destruct (Py.split_on "," arg) as [|sx [|sy [|sd [|extra fields]]]];
      try discriminate.
    destruct (Py.int max_str_digits sx) as [x'|] eqn:Hx; [|discriminate].
    destruct (Py.int max_str_digits sy) as [y'|] eqn:Hy; [|discriminate].
    destruct (Direction_of_name sd) as [d'|] eqn:Hd; [|discriminate].
    intros [= <- <- <-]. apply Direction_of_name_spec in Hd. subst sd.
    exists sx, sy. auto.
  - intros (sx & sy & -> & -> & ->).
    rewrite (proj2 (Direction_of_name_spec (name d) d) eq_refl). reflexivity.
Qed.

(** The other branches, as a function of the tag. *)
Lemma process_other (command tag : string) (rest : list string)
  (r : ToyRobot) :
  Py.split command = tag :: rest ->
  (tag =? "PLACE") = false ->
  process_command max_str_digits command r
  = (if tag =? "MOVE" then move ;; ret None
     else if tag =? "LEFT" then rotate false ;; ret None
     else if tag =? "RIGHT" then rotate true ;; ret None
     else if tag =? "REPORT" then s <- report max_str_digits ;; ret (Some s)
     else ret (Some "Invalid command")) r.
Proof.
  intros H N. unfold process_command, item. rewrite H.
  cbn [nth_error or_raise]. unfold bind at 1, ret at 1. rewrite N.
  reflexivity.
Qed.

(** Whatever the line, the interpreter leaves the robot as it was or as
    one call of [place], [move] or [rotate] leaves it. *)
Lemma process_command_effect (command : string) (r r' : ToyRobot) :
  fst (process_command max_str_digits command r) = r' ->
  r' = r
  \/ (exists x y d, r' = state_after (place x y d) r)
  \/ r' = state_after move r
  \/ (exists b, r' = state_after (rotate b) r).
Proof.
  intros <-. destruct (Py.split command) as [|tag rest] eqn:H.
  - left. unfold process_command, item. rewrite H. reflexivity.
  - destruct (String.eqb_spec tag "PLACE") as [->|N].
    + rewrite (process_place _ _ _ H).
      destruct rest as [|arg more]; [left; reflexivity|].
      destruct (place_argument max_str_digits arg) as [[[x y] d]|];
        [right; left; exists x, y, d; reflexivity | left; reflexivity].
    + apply String.eqb_neq in N. rewrite (process_other _ _ _ _ H N).
      destruct (tag =? "MOVE").
      { right; right; left. apply (then_ret_state move). }
      destruct (tag =? "LEFT").
      { right; right; right. exists false.
        apply (then_ret_state (rotate false)). }
      destruct (tag =? "RIGHT").
      { right; right; right. exists true.
        apply (then_ret_state (rotate true)). }
      destruct (tag =? "REPORT"); [|left; reflexivity].
      left. rewrite <- (report_state r) at 2.
      apply (then_ret_state (report max_str_digits)).
Qed.

(** *** Steps that keep the invariant and the placed flag *)

Lemma invariant_cases (r : ToyRobot) :
  invariant r ->
  _placed r = false \/ exists x y d, r = robot_at x y d /\ on_table x y.
Proof.
  intros H. destruct r as [ox oy od [|]]; [right|left; reflexivity].
  destruct (H eq_refl) as (x & y & d & Hx & Hy & Hd & Ht).
  cbn in Hx, Hy, Hd. subst. exists x, y, d. split; [reflexivity|exact Ht].
Qed.

Lemma invariant_robot_at (x y : Z) (d : Direction) :
  on_table x y -> invariant (robot_at x y d).
Proof. intros H _. exists x, y, d. cbn. auto. Qed.

Lemma place_invariant (x y : Z) (d : Direction) (r : ToyRobot) :
  invariant r -> invariant (state_after (place x y d) r).
Proof.
  intros H. unfold state_after.
  destruct (is_valid_position x y) eqn:V.
  - rewrite (place_valid _ _ _ _ V). apply invariant_robot_at.
    apply is_valid_position_true, V.
  - rewrite (place_invalid _ _ _ _ V). exact H.
Qed.

Lemma move_invariant (r : ToyRobot) :
  invariant r -> invariant (state_after move r).
Proof.
  intros H. unfold state_after.
  destruct (invariant_cases r H) as [U | (x & y & d & -> & Ht)].
  - rewrite (move_unplaced _ U). exact H.
  - rewrite move_placed.
    destruct (is_valid_position (fst (ahead d x y)) (snd (ahead d x y)))
      eqn:V; [|exact H].
    apply invariant_robot_at, is_valid_position_true, V.
Qed.

Lemma rotate_invariant (b : bool) (r : ToyRobot) :
  invariant r -> invariant (state_after (rotate b) r).
Proof.
  intros H. unfold state_after.
  destruct (invariant_cases r H) as [U | (x & y & d & -> & Ht)].
  - rewrite (rotate_unplaced _ _ U). exact H.
  - unfold robot_at. rewrite rotate_placed.
    apply (invariant_robot_at x y _ Ht).
Qed.

Lemma perform_invariant (o : operation) (r : ToyRobot) :
  invariant r -> invariant (perform max_str_digits o r).
Proof.
  intros H. destruct o as [x y d| |b| |line]; cbn [perform].
  - apply place_invariant, H.
  - apply move_invariant, H.
  - apply rotate_invariant, H.
  - rewrite report_state. exact H.
  - destruct (process_command_effect line r _ eq_refl)
      as [E | [(x & y & d & E) | [E | (b & E)]]];
      unfold state_after at 1; rewrite E.
    + exact H.
    + apply place_invariant, H.
    + apply move_invariant, H.
    + apply rotate_invariant, H.
Qed.

Lemma place_stays_placed (x y : Z) (d : Direction) (r : ToyRobot) :
  _placed r = true -> _placed (state_after (place x y d) r) = true.
Proof.
  intros H. unfold state_after, place.
  destruct (is_valid_position x y); [reflexivity|exact H].
Qed.

Lemma perform_stays_placed (o : operation) (r : ToyRobot) :
  _placed r = true -> _placed (perform max_str_digits o r) = true.
Proof.
  intros H. destruct o as [x y d| |b| |line]; cbn [perform].
  - apply place_stays_placed, H.
  - rewrite (proj2 (move_frame r)). exact H.
  - rewrite (proj2 (proj2 (rotate_frame b r))). exact H.
  - rewrite report_state. exact H.
  - destruct (process_command_effect line r _ eq_refl)
      as [E | [(x & y & d & E) | [E | (b & E)]]];
      unfold state_after at 1; rewrite E.
    + exact H.
    + apply place_stays_placed, H.
    + rewrite (proj2 (move_frame r)). exact H.
    + rewrite (proj2 (proj2 (rotate_frame b r))). exact H.
Qed.

Lemma process_all_perform_all (commands : list string) (r : ToyRobot) :
  fst (process_all max_str_digits commands r)
  = perform_all max_str_digits (map Command commands) r.
Proof.
  revert r. induction commands as [|c cs IH]; intros r; [reflexivity|].
  cbn [process_all map perform_all fold_left perform].
  unfold state_after.
  destruct (process_command max_str_digits c r) as [r1 o]. cbn [fst].
  specialize (IH r1). unfold perform_all in IH. rewrite <- IH.
  destruct (process_all max_str_digits cs r1) as [r2 os]. reflexivity.
Qed.

(** *** Lines that the interpreter answers *)

Lemma process_unknown_tag (command tag : string) (rest : list string)
  (r : ToyRobot) :
  Py.split command = tag :: rest ->
  ~ In tag ["PLACE"; "MOVE"; "LEFT"; "RIGHT"; "REPORT"] ->
  process_command max_str_digits command r
  = (r, Return (Some "Invalid command")).
Proof.
  intros H N.
  assert (forall t, In t ["PLACE"; "MOVE"; "LEFT"; "RIGHT"; "REPORT"] ->
                    (tag =? t) = false) as F.
  { intros t Ht. apply String.eqb_neq. intros <-. exact (N Ht). }
  rewrite (process_other _ _ _ _ H) by (apply F; cbn; auto).
  rewrite !F by (cbn; auto 6). reflexivity.
Qed.

Lemma then_ret_returns {A B} (c : M A) (f : A -> B) (r r' : ToyRobot) (a : A) :
  c r = (r', Return a) -> (x <- c ;; ret (f x)) r = (r', Return (f a)).
Proof. intros H. run. rewrite H. reflexivity. Qed.

(** On a robot that satisfies the invariant, a line with at least one
    token is answered with a value. *)
Lemma process_command_returns (command tag : string) (rest : list string)
  (r : ToyRobot) :
  invariant r ->
  Py.split command = tag :: rest ->
  exists v, result_of (process_command max_str_digits command) r = Return v.
Proof.
  intros I H. unfold result_of.
  destruct (String.eqb_spec tag "PLACE") as [->|N].
  - rewrite (process_place _ _ _ H).
    destruct rest as [|arg more]; [eexists; reflexivity|].
    destruct (place_argument max_str_digits arg) as [[[x y] d]|];
      eexists; reflexivity.
  - apply String.eqb_neq in N. rewrite (process_other _ _ _ _ H N).
    destruct (invariant_cases r I) as [U | (x & y & d & -> & Ht)].
    + destruct (tag =? "MOVE").
      { erewrite then_ret_returns by (apply move_unplaced, U).
        eexists; reflexivity. }
      destruct (tag =? "LEFT").
      { erewrite then_ret_returns by (apply rotate_unplaced, U).
        eexists; reflexivity. }
      destruct (tag =? "RIGHT").
      { erewrite then_ret_returns by (apply rotate_unplaced, U).
        eexists; reflexivity. }
      destruct (tag =? "REPORT"); [|eexists; reflexivity].
      erewrite then_ret_returns by (apply report_unplaced, U).
      eexists; reflexivity.
    + destruct (tag =? "MOVE").
      { erewrite then_ret_returns by apply move_placed.
        eexists; reflexivity. }
      destruct (tag =? "LEFT").
      { erewrite then_ret_returns by apply rotate_placed.
        eexists; reflexivity. }
      destruct (tag =? "RIGHT").
      { erewrite then_ret_returns by apply rotate_placed.
        eexists; reflexivity. }
      destruct (tag =? "REPORT"); [|eexists; reflexivity].
      erewrite then_ret_returns by (apply report_placed, Ht).
      eexists; reflexivity.
Qed.

End Properties.

(** ** The claims of the specification *)

(** C1: the specification has [process_command] return "Invalid command"
    for an empty or all-whitespace line and never raise.  The program takes
    [parts[0]] of the empty token list outside any [try]: on such a line
    it raises [IndexError] to its caller and leaves the robot as it was.
    (With at least one token it does return: [process_command_returns],
    [process_unknown_tag].) *)
Theorem process_command_blank_line_raises (max_str_digits : nat) (r : ToyRobot) :
  process_command max_str_digits "" r = (r, Raise Py.IndexError)
  /\ process_command max_str_digits "   " r = (r, Raise Py.IndexError).
Proof. split; reflexivity. Qed.

(** C2: the invariant "placed implies 0 <= x <= 4, 0 <= y <= 4 and an
    orientation" holds of the initial robot, is kept by every operation
    ([place], [move], [rotate], [report], a processed command line) and
    therefore holds after every sequence of operations or command lines. *)
Theorem invariant_preserved (max_str_digits : nat) :
  invariant init
  /\ (forall o r, invariant r -> invariant (perform max_str_digits o r))
  /\ (forall os, invariant (perform_all max_str_digits os init))
  /\ (forall commands,
        invariant (fst (process_all max_str_digits commands init))).
Proof.
  assert (invariant init) as I0 by (intros H; discriminate H).
  assert (forall os r, invariant r ->
                       invariant (perform_all max_str_digits os r)) as IA.
  { induction os as [|o os IH]; intros r H; [exact H|].
    apply IH, perform_invariant, H. }
  repeat split.
  - exact I0.
  - intros o r. apply perform_invariant.
  - intros os. apply IA, I0.
  - intros commands. rewrite process_all_perform_all. apply IA, I0.
Qed.

Lemma invariant_preserved_witness :
  invariant (robot_at 0 4 NORTH)
  /\ invariant (perform 4300 Move (robot_at 0 4 NORTH)).
Proof.
  assert (invariant (robot_at 0 4 NORTH)) as H.
  { intros _. exists 0, 4, NORTH. cbn. unfold on_table. repeat split; lia. }
  split; [exact H|].
  exact (proj1 (proj2 (invariant_preserved 4300)) Move (robot_at 0 4 NORTH) H).
Defined.

(** C3: on a placed robot at [(x, y)] facing [d], [move] goes to the cell
    one unit ahead (NORTH: y+1, EAST: x+1, SOUTH: y-1, WEST: x-1) when that
    cell is on the table and stays put when it is not; facing NORTH at
    (0,4) the robot stays at (0,4); on an unplaced robot [move] does
    nothing. *)
Theorem move_steps_or_stays :
  (forall x y d x' y',
      ahead d x y = (x', y') ->
      (on_table x' y' ->
       move (robot_at x y d) = (robot_at x' y' d, Return tt))
      /\ (~ on_table x' y' ->
          move (robot_at x y d) = (robot_at x y d, Return tt)))
  /\ move (robot_at 0 4 NORTH) = (robot_at 0 4 NORTH, Return tt)
  /\ (forall r, _placed r = false -> move r = (r, Return tt)).
Proof.
  split; [|split].
  - intros x y d x' y' A. rewrite move_placed, A. cbn [fst snd]. split; intros H.
    + apply is_valid_position_true in H. rewrite H. reflexivity.
    + apply is_valid_position_false in H. rewrite H. reflexivity.
  - reflexivity.
  - apply move_unplaced.
Qed.

Lemma move_steps_or_stays_witness :
  move (robot_at 1 2 EAST) = (robot_at 2 2 EAST, Return tt)
  /\ move (robot_at 0 0 SOUTH) = (robot_at 0 0 SOUTH, Return tt)
  /\ move init = (init, Return tt).
Proof.
  destruct move_steps_or_stays as [S [_ U]].
  split; [|split].
  - apply (proj1 (S 1 2 EAST 2 2 eq_refl)). unfold on_table. lia.
  - apply (proj2 (S 0 0 SOUTH 0 (-1) eq_refl)). unfold on_table. lia.
  - apply U. reflexivity.
Defined.

(** C4: for a position [(x, y)] on the table, [place(x, y, d)] followed by
    [report()] returns the digit of [x], a comma, the digit of [y], a comma
    and the upper-case name of [d], one of NORTH, EAST, SOUTH and WEST
    (these digits read back as [x] and [y], and the name as [d]);
    [report()] on a robot that is not placed returns
    "Robot not placed on the table". *)
Theorem place_then_report (max_str_digits : nat) :
  (forall r x y d,
      on_table x y ->
      (place x y d ;; report max_str_digits) r
      = (robot_at x y d,
         Return (String (digit_char x)
                   ("," ++ String (digit_char y)
                      ("," ++ match d with
                              | NORTH => "NORTH"
                              | EAST => "EAST"
                              | SOUTH => "SOUTH"
                              | WEST => "WEST"
                              end))))
      /\ Py.int max_str_digits (String (digit_char x) EmptyString) = Some x
      /\ Py.int max_str_digits (String (digit_char y) EmptyString) = Some y
      /\ Direction_of_name (name d) = Some d)
  /\ (forall r,
         _placed r = false ->
         report max_str_digits r = (r, Return "Robot not placed on the table")).
Proof.
  split.
  - intros r x y d Ht.
    assert (forall z, 0 <= z <= 4 ->
              Py.int max_str_digits (String (digit_char z) EmptyString) = Some z)
      as Hd.
    { intros z Hz.
      assert (z = 0 \/ z = 1 \/ z = 2 \/ z = 3 \/ z = 4) as Hc by lia.
      destruct Hc as [-> | [-> | [-> | [-> | ->]]]]; reflexivity. }
    split; [|split; [apply Hd, Ht | split; [apply Hd, Ht|]]].
    + unfold bind at 1.
      rewrite (place_valid r x y d) by (apply is_valid_position_true, Ht).
      rewrite (report_placed max_str_digits x y d Ht).
      destruct d; reflexivity.
    + destruct d; reflexivity.
  - apply report_unplaced.
Qed.

Lemma place_then_report_witness :
  (place 3 4 WEST ;; report 4300) init = (robot_at 3 4 WEST, Return "3,4,WEST")
  /\ (place 0 1 NORTH ;; report 4300) (robot_at 3 4 WEST)
     = (robot_at 0 1 NORTH, Return "0,1,NORTH")
  /\ report 4300 init = (init, Return "Robot not placed on the table").
Proof.
  destruct (place_then_report 4300) as [P U]. split; [|split].
  - apply (P init 3 4 WEST). unfold on_table. lia.
  - apply (P (robot_at 3 4 WEST) 0 1 NORTH). unfold on_table. lia.
  - apply (U init). reflexivity.
Defined.

(** C5: [is_valid_position(x, y)] is true exactly when 0 <= x <= 4 and
    0 <= y <= 4; it is a static method, so evaluating it in the course of
    a computation leaves the robot as it was and raises nothing. *)
Theorem is_valid_position_spec (x y : Z) :
  (is_valid_position x y = true <-> 0 <= x <= 4 /\ 0 <= y <= 4)
  /\ (forall r, ret (is_valid_position x y) r
                = (r, Return (is_valid_position x y))).
Proof.
  split; [apply is_valid_position_true | reflexivity].
Qed.

Lemma is_valid_position_spec_witness :
  is_valid_position 4 0 = true /\ ~ (0 <= 5 <= 4 /\ 0 <= 0 <= 4).
Proof.
  split.
  - apply (proj1 (is_valid_position_spec 4 0)). lia.
  - intros H. apply (proj1 (is_valid_position_spec 5 0)) in H. discriminate H.
Defined.

(** C6: on a placed robot, [rotate(clockwise=True)] moves the orientation
    one step forward in the cyclic order NORTH, EAST, SOUTH, WEST (value + 1
    modulo 4) and [rotate(clockwise=False)] one step backward (value - 1
    modulo 4); four rotations in the same direction give back the robot one
    started from; on an unplaced robot [rotate] does nothing. *)
Theorem rotate_cyclic (ox oy : option Z) (od : option Direction)
  (d : Direction) (b : bool) :
  let r := mkRobot ox oy (Some d) true in
  rotate true r = (mkRobot ox oy (Some (turn_right d)) true, Return tt)
  /\ value (turn_right d) = (value d + 1) mod 4
  /\ rotate false r = (mkRobot ox oy (Some (turn_left d)) true, Return tt)
  /\ value (turn_left d) = (value d - 1) mod 4
  /\ (rotate b ;; rotate b ;; rotate b ;; rotate b) r = (r, Return tt)
  /\ rotate b (mkRobot ox oy od false) = (mkRobot ox oy od false, Return tt).
Proof.
  cbv zeta. split; [|split; [|split; [|split; [|split]]]].
  - apply (rotate_placed ox oy d true).
  - destruct d; reflexivity.
  - apply (rotate_placed ox oy d false).
  - destruct d; reflexivity.
  - unfold bind. rewrite !rotate_placed. destruct b, d; reflexivity.
  - apply rotate_unplaced. reflexivity.
Qed.

(** C7: when [(x, y)] is not a valid position, [place(x, y, d)] leaves the
    robot exactly as it was, placed or not, and returns normally; a PLACE
    line whose argument reads as such a placement is answered with nothing,
    so no diagnostic is produced. *)
Theorem place_invalid_ignored (r : ToyRobot) (x y : Z) (d : Direction) :
  is_valid_position x y = false ->
  place x y d r = (r, Return tt)
  /\ (forall max_str_digits command arg more,
         Py.split command = "PLACE" :: arg :: more ->
         reads_as max_str_digits arg x y d ->
         process_command max_str_digits command r = (r, Return None)).
Proof.
  intros V. split; [apply place_invalid, V|].
  intros n command arg more H A.
  rewrite (process_place n command _ r H).
  apply place_argument_spec in A. rewrite A.
  unfold state_after. rewrite (place_invalid r x y d V). reflexivity.
Qed.

Lemma place_invalid_ignored_witness :
  place 5 5 NORTH (robot_at 1 2 EAST) = (robot_at 1 2 EAST, Return tt)
  /\ process_command 4300 "PLACE 5,5,NORTH" (robot_at 1 2 EAST)
     = (robot_at 1 2 EAST, Return None).
Proof.
  destruct (place_invalid_ignored (robot_at 1 2 EAST) 5 5 NORTH eq_refl)
    as [P C].
  split; [exact P|].
  apply (C 4300%nat "PLACE 5,5,NORTH" "5,5,NORTH" []); [reflexivity|].
  exists "5", "5". repeat split; reflexivity.
Defined.

(** C8, as the specification states it, fails: a PLACE line with two
    further tokens is accepted and places the robot. *)
Lemma place_extra_token_accepted :
  Py.split "PLACE 1,2,NORTH EXTRA" = ["PLACE"; "1,2,NORTH"; "EXTRA"]
  /\ process_command 4300 "PLACE 1,2,NORTH EXTRA" init
     = (robot_at 1 2 NORTH, Return None).
Proof. split; reflexivity. Qed.

(** C8, amended: on a line whose first token is PLACE, the interpreter
    looks at the first further token only.  When that token reads as a
    placement (three comma-separated fields: two integers and one of the
    four orientation names), it calls [place] and returns nothing, whatever
    tokens follow; in every other case (no further token, wrong number of
    fields, a field that is not an integer, an unknown orientation name) it
    returns "Invalid PLACE command" and leaves the robot as it was. *)
Theorem place_command_first_argument (max_str_digits : nat)
  (command : string) (rest : list string) (r : ToyRobot) :
  Py.split command = "PLACE" :: rest ->
  (forall arg more x y d,
      rest = arg :: more ->
      reads_as max_str_digits arg x y d ->
      process_command max_str_digits command r
      = (state_after (place x y d) r, Return None))
  /\ ((forall arg more x y d,
          rest = arg :: more -> ~ reads_as max_str_digits arg x y d) ->
      process_command max_str_digits command r
      = (r, Return (Some "Invalid PLACE command")))
  /\ (forall s d, Direction_of_name s = Some d <-> s = name d).
Proof.
  intros H. rewrite (process_place max_str_digits command rest r H).
  split; [|split].
  - intros arg more x y d -> A.
    apply place_argument_spec in A. rewrite A. reflexivity.
  - intros N. destruct rest as [|arg more]; [reflexivity|].
    destruct (place_argument max_str_digits arg) as [[[x y] d]|] eqn:A;
      [|reflexivity].
    apply place_argument_spec in A. destruct (N arg more x y d eq_refl A).
  - apply Direction_of_name_spec.
Qed.

Lemma place_command_first_argument_witness :
  process_command 4300 "PLACE 1,2,NORTH EXTRA" init
  = (robot_at 1 2 NORTH, Return None)
  /\ process_command 4300 "PLACE" (robot_at 1 2 NORTH)
     = (robot_at 1 2 NORTH, Return (Some "Invalid PLACE command")).
Proof.
  split.
  - apply (proj1 (place_command_first_argument 4300 "PLACE 1,2,NORTH EXTRA"
                    ["1,2,NORTH"; "EXTRA"] init eq_refl)
             "1,2,NORTH" ["EXTRA"] 1 2 NORTH eq_refl).
    exists "1", "2". repeat split; reflexivity.
  - apply (proj1 (proj2 (place_command_first_argument 4300 "PLACE" []
                           (robot_at 1 2 NORTH) eq_refl))).
    intros arg more x y d E. discriminate E.
Defined.

(** C9: a placed robot stays placed: after any sequence of operations
    ([place] accepted or rejected, [move], [rotate], [report], any command
    line, well-formed or not) the placed flag is still set; and a [place] on
    a valid position sets it. *)
Theorem placed_forever (max_str_digits : nat) (os : list operation) :
  (forall r,
      _placed r = true -> _placed (perform_all max_str_digits os r) = true)
  /\ (forall r x y d,
         on_table x y ->
         _placed (perform_all max_str_digits (Place x y d :: os) r) = true)
  /\ (forall r commands,
         _placed r = true ->
         _placed (fst (process_all max_str_digits commands r)) = true).
Proof.
  assert (forall l r, _placed r = true ->
                      _placed (perform_all max_str_digits l r) = true) as A.
  { induction l as [|o l IH]; intros r H; [exact H|].
    apply IH, perform_stays_placed, H. }
  split; [apply A | split].
  - intros r x y d Ht.
    change (perform_all max_str_digits (Place x y d :: os) r)
      with (perform_all max_str_digits os (state_after (place x y d) r)).
    apply A. unfold state_after.
    rewrite (place_valid r x y d) by (apply is_valid_position_true, Ht).
    reflexivity.
  - intros r commands H. rewrite process_all_perform_all. apply A, H.
Qed.

Lemma placed_forever_witness :
  _placed (perform_all 4300
             [Move; Rotate true; Place 9 9 EAST; Report; Command "";
              Command "PLACE 7,7,WEST"; Command "PLACE x"; Command "JUMP"]
             (robot_at 0 0 NORTH)) = true
  /\ _placed (perform_all 4300 [Place 2 2 SOUTH; Command "PLACE 5,0,EAST"] init)
     = true
  /\ _placed (fst (process_all 4300 ["LEFT"; ""; "PLACE"] (robot_at 4 4 WEST)))
     = true.
Proof.
  split; [|split].
  - apply (proj1 (placed_forever 4300
                    [Move; Rotate true; Place 9 9 EAST; Report; Command "";
                     Command "PLACE 7,7,WEST"; Command "PLACE x";
                     Command "JUMP"])).
    reflexivity.
  - apply (proj1 (proj2 (placed_forever 4300 [Command "PLACE 5,0,EAST"]))).
    unfold on_table. lia.
  - apply (proj2 (proj2 (placed_forever 4300 []))). reflexivity.
Defined.

(** C10: [move] never changes the orientation or the placed flag, [rotate]
    never changes the position or the placed flag, and [report] changes
    nothing, whatever the robot. *)
Theorem frame_conditions (max_str_digits : nat) (r : ToyRobot) (b : bool) :
  (_direction (state_after move r) = _direction r
   /\ _placed (state_after move r) = _placed r)
  /\ (_x (state_after (rotate b) r) = _x r
      /\ _y (state_after (rotate b) r) = _y r
      /\ _placed (state_after (rotate b) r) = _placed r)
  /\ state_after (report max_str_digits) r = r.
Proof.
  split; [apply move_frame | split; [apply rotate_frame | apply report_state]].
Qed.

(** ** Further properties of the program *)

(** X1: with at least one token on the line and a robot that satisfies the
    invariant, [process_command] returns a value and raises nothing; when
    the first token is none of the five tags (the comparison is
    case-sensitive) the value is "Invalid command" and the robot is left as
    it was. *)
Theorem process_command_answers (max_str_digits : nat)
  (command tag : string) (rest : list string) (r : ToyRobot) :
  Py.split command = tag :: rest ->
  (invariant r ->
   exists v, result_of (process_command max_str_digits command) r = Return v)
  /\ (~ In tag ["PLACE"; "MOVE"; "LEFT"; "RIGHT"; "REPORT"] ->
      process_command max_str_digits command r
      = (r, Return (Some "Invalid command"))).
Proof.
  intros H. split.
  - intros I. exact (process_command_returns max_str_digits _ _ _ r I H).
  - apply (process_unknown_tag max_str_digits _ _ _ r H).
Qed.

Lemma process_command_answers_witness :
  (exists v, result_of (process_command 4300 "REPORT now") (robot_at 2 3 WEST)
             = Return v)
  /\ process_command 4300 "move" init = (init, Return (Some "Invalid command")).
Proof.
  split.
  - apply (proj1 (process_command_answers 4300 "REPORT now" "REPORT" ["now"]
                    (robot_at 2 3 WEST) eq_refl)).
    apply invariant_robot_at. unfold on_table. lia.
  - apply (proj2 (process_command_answers 4300 "move" "move" [] init eq_refl)).
    cbn. intros [H | [H | [H | [H | [H | []]]]]]; discriminate H.
Defined.



(** X3: on a robot that satisfies the invariant no method raises: [move]
    and [rotate] return [None] and [report] returns a string. *)
Theorem methods_return (max_str_digits : nat) (r : ToyRobot) (b : bool) :
  invariant r ->
  result_of move r = Return tt
  /\ result_of (rotate b) r = Return tt
  /\ exists s, result_of (report max_str_digits) r = Return s.
Proof.
  intros I. unfold result_of.
  destruct (invariant_cases r I) as [U | (x & y & d & -> & Ht)].
  - rewrite (move_unplaced r U), (rotate_unplaced r b U),
      (report_unplaced max_str_digits r U).
    cbn. eauto.
  - rewrite move_placed, (report_placed max_str_digits x y d Ht).
    unfold robot_at. rewrite rotate_placed. cbn. eauto.
Qed.

Lemma methods_return_witness :
  result_of move (robot_at 4 4 NORTH) = Return tt
  /\ result_of (rotate false) (robot_at 4 4 NORTH) = Return tt
  /\ exists s, result_of (report 4300) (robot_at 4 4 NORTH) = Return s.
Proof.
  apply (methods_return 4300 (robot_at 4 4 NORTH) false).
  apply invariant_robot_at. unfold on_table. lia.
Defined.

(** X4: a turn to one side undoes a turn to the other, and three turns to
    one side are one turn to the other. *)
Theorem rotate_inverse (r : ToyRobot) (b : bool) :
  invariant r ->
  (rotate b ;; rotate (negb b)) r = (r, Return tt)
  /\ (rotate b ;; rotate b ;; rotate b) r = rotate (negb b) r.
Proof.
  intros I. unfold bind.
  destruct (invariant_cases r I) as [U | (x & y & d & -> & Ht)].
  - rewrite !(rotate_unplaced r _ U). auto.
  - unfold robot_at. rewrite !rotate_placed. destruct b, d; auto.
Qed.

Lemma rotate_inverse_witness :
  (rotate true ;; rotate false) (robot_at 1 1 WEST)
  = (robot_at 1 1 WEST, Return tt)
  /\ (rotate true ;; rotate true ;; rotate true) (robot_at 1 1 WEST)
     = rotate false (robot_at 1 1 WEST).
Proof.
  apply (rotate_inverse (robot_at 1 1 WEST) true).
  apply invariant_robot_at. unfold on_table. lia.
Defined.

(** X5: a step that was taken can be taken back: after a [move] that left
    the robot on a new cell, turning round (two turns to the same side),
    moving and turning round again gives back the robot one started
    from. *)
Theorem move_back (x y : Z) (d : Direction) (b : bool) :
  on_table x y ->
  on_table (fst (ahead d x y)) (snd (ahead d x y)) ->
  (move ;; rotate b ;; rotate b ;; move ;; rotate b ;; rotate b)
    (robot_at x y d)
  = (robot_at x y d, Return tt).
Proof.
  intros Ht Ha. each_cell x y Ht; destruct d; cbn in Ha; unfold on_table in Ha;
    try lia; destruct b; reflexivity.
Qed.

Lemma move_back_witness :
  (move ;; rotate true ;; rotate true ;; move ;; rotate true ;; rotate true)
    (robot_at 0 3 NORTH)
  = (robot_at 0 3 NORTH, Return tt).
Proof.
  apply (move_back 0 3 NORTH true); cbn; unfold on_table; lia.
Defined.

(** X6: the robot stops at the edge of the table: after four [move]s in a
    row it stands where any further [move] leaves it, so every longer row
    of [move]s ends on the same robot. *)
Theorem moves_reach_the_edge (max_str_digits : nat) (n : nat) (r : ToyRobot) :
  invariant r ->
  (4 <= n)%nat ->
  perform_all max_str_digits (repeat Move n) r
  = perform_all max_str_digits (repeat Move 4) r.
Proof.
  intros I Hn.
  assert (forall k w, state_after move w = w ->
                      perform_all max_str_digits (repeat Move k) w = w) as F.
  { induction k as [|k IH]; intros w Hw; [reflexivity|].
    cbn [repeat]. unfold perform_all. cbn [fold_left perform].
    rewrite Hw. apply (IH w Hw). }
  replace n with (4 + (n - 4))%nat by lia.
  rewrite repeat_app. unfold perform_all at 1. rewrite fold_left_app.
  apply F.
  destruct (invariant_cases r I) as [U | (x & y & d & -> & Ht)].
  - destruct r as [ox oy od p]. cbn in U. subst p. reflexivity.
  - each_cell x y Ht; destruct d; reflexivity.
Qed.

Lemma moves_reach_the_edge_witness :
  perform_all 4300 (repeat Move 7) (robot_at 1 2 EAST) = robot_at 4 2 EAST.
Proof.
  rewrite (moves_reach_the_edge 4300 7 (robot_at 1 2 EAST)).
  - reflexivity.
  - apply invariant_robot_at. unfold on_table. lia.
  - lia.
Defined.

(** X7: what [report] returns for a placed robot is an argument that PLACE
    reads back: the line PLACE followed by that report puts any robot in the
    state reported. *)
Theorem report_place_round_trip (max_str_digits : nat) (r r0 : ToyRobot)
  (s : string) :
  invariant r ->
  _placed r = true ->
  result_of (report max_str_digits) r = Return s ->
  process_command max_str_digits ("PLACE " ++ s) r0 = (r, Return None).
Proof.
  intros I P R. unfold result_of in R.
  destruct (invariant_cases r I) as [U | (x & y & d & -> & Ht)];
    [congruence|].
  rewrite (report_placed max_str_digits x y d Ht) in R. cbn [snd] in R.
  injection R as <-.
  each_cell x y Ht; destruct d; reflexivity.
Qed.

Lemma report_place_round_trip_witness :
  process_command 4300 "PLACE 3,0,SOUTH" init = (robot_at 3 0 SOUTH, Return None).
Proof.
  apply (report_place_round_trip 4300 (robot_at 3 0 SOUTH) init "3,0,SOUTH").
  - apply invariant_robot_at. unfold on_table. lia.
  - reflexivity.
  - reflexivity.
Defined.

(** *** The read loop *)

Ltac each_char c :=
  destruct c as [[|] [|] [|] [|] [|] [|] [|] [|]].

Lemma upper_char_space (c : ascii) :
  Py.isspace c = true -> Text.upper_char c = String c EmptyString.
Proof.
  each_char c; intros H; first [reflexivity | vm_compute in H; discriminate H].
Qed.

Lemma upper_char_head (c : ascii) :
  Py.isspace c = false ->
  exists c' t, Text.upper_char c = String c' t /\ Py.isspace c' = false.
Proof.
  each_char c; intros H;
    first [ vm_compute in H; discriminate H
          | eexists; eexists; split; vm_compute; reflexivity ].
Qed.

Lemma upper_char_rstrip (c : ascii) :
  Py.isspace c = false -> Text.rstrip (Text.upper_char c) = Text.upper_char c.
Proof.
  each_char c; intros H; first [reflexivity | vm_compute in H; discriminate H].
Qed.

Lemma upper_char_upper (c : ascii) :
  Text.upper (Text.upper_char c) = Text.upper_char c.
Proof. each_char c; reflexivity. Qed.

Lemma upper_char_nonempty (c : ascii) :
  Text.upper_char c <> EmptyString.
Proof. each_char c; discriminate. Qed.

Lemma upper_app (a b : string) :
  Text.upper (a ++ b) = Text.upper a ++ Text.upper b.
Proof.
  induction a as [|c a IH]; [reflexivity|].
  cbn [append Text.upper]. rewrite IH.
  induction (Text.upper_char c) as [|c' u IHu]; [reflexivity|].
  cbn [append]. rewrite IHu. reflexivity.
Qed.

Lemma upper_upper (s : string) : Text.upper (Text.upper s) = Text.upper s.
Proof.
  induction s as [|c s IH]; [reflexivity|].
  cbn [Text.upper]. rewrite upper_app, upper_char_upper, IH. reflexivity.
Qed.

Lemma lstrip_upper (s : string) :
  Text.lstrip (Text.upper s) = Text.upper (Text.lstrip s).
Proof.
  induction s as [|c s IH]; [reflexivity|].
  cbn [Text.upper Text.lstrip]. destruct (Py.isspace c) eqn:W.
  - rewrite (upper_char_space c W). cbn [append Text.lstrip].
    rewrite W. exact IH.
  - destruct (upper_char_head c W) as (c' & t & E & W').
    cbn [Text.upper]. rewrite E. cbn [append Text.lstrip]. rewrite W'.
    reflexivity.
Qed.

Lemma rstrip_app (u v : string) :
  Text.rstrip (u ++ v)
  = match Text.rstrip v with
    | EmptyString => Text.rstrip u
    | String _ _ => u ++ Text.rstrip v
    end.
Proof.
  induction u as [|c u IH]; cbn [append Text.rstrip].
  - destruct (Text.rstrip v); reflexivity.
  - rewrite IH. destruct (Text.rstrip v); [reflexivity|].
    destruct u; reflexivity.
Qed.

Lemma upper_nonempty (c : ascii) (s : string) :
  Text.upper (String c s) <> EmptyString.
Proof.
  cbn [Text.upper]. pose proof (upper_char_nonempty c) as N.
  destruct (Text.upper_char c); [congruence | discriminate].
Qed.

Lemma rstrip_upper (s : string) :
  Text.rstrip (Text.upper s) = Text.upper (Text.rstrip s).
Proof.
  induction s as [|c s IH]; [reflexivity|].
  cbn [Text.upper Text.rstrip]. rewrite rstrip_app, IH.
  destruct (Text.rstrip s) as [|c1 t] eqn:R.
  - cbn [Text.upper]. destruct (Py.isspace c) eqn:W.
    + rewrite (upper_char_space c W). cbn [Text.rstrip]. rewrite W.
      reflexivity.
    + rewrite (upper_char_rstrip c W). cbn [Text.upper].
      induction (Text.upper_char c) as [|c' u IHu]; [reflexivity|].
      cbn [append]. rewrite <- IHu. reflexivity.
  - pose proof (upper_nonempty c1 t) as N.
    change (Text.upper (String c (String c1 t)))
      with (Text.upper_char c ++ Text.upper (String c1 t)).
    destruct (Text.upper (String c1 t)) as [|c2 t2]; [congruence|].
    reflexivity.
Qed.

(** A line and its upper-case form give the same command. *)
Lemma command_of_upper (line : string) :
  command_of (Text.upper line) = command_of line.
Proof.
  unfold command_of, Text.strip.
  rewrite lstrip_upper, rstrip_upper. apply upper_upper.
Qed.

Lemma process_no_token (max_str_digits : nat) (command : string) (r : ToyRobot) :
  Py.split command = [] ->
  process_command max_str_digits command r = (r, Raise Py.IndexError).
Proof. intros H. unfold process_command, item. rewrite H. reflexivity. Qed.

Lemma then_ret_inv {A B} (c : M A) (f : A -> B) (r r' : ToyRobot) (v : B) :
  (a <- c ;; ret (f a)) r = (r', Return v) ->
  exists a, c r = (r', Return a) /\ v = f a.
Proof.
  unfold bind, ret. destruct (c r) as [r1 [a|e]]; intros [= <- <-];
    exists a; auto.
Qed.

(** What a call of [process_command] can return on a robot that
    satisfies the invariant. *)
Lemma process_command_line (max_str_digits : nat) (command s : string)
  (r r' : ToyRobot) :
  invariant r ->
  process_command max_str_digits command r = (r', Return (Some s)) ->
  output_line s.
Proof.
  intros I. unfold output_line.
  destruct (Py.split command) as [|tag rest] eqn:H.
  - rewrite (process_no_token _ _ _ H). discriminate.
  - destruct (String.eqb_spec tag "PLACE") as [->|N].
    + rewrite (process_place _ _ _ r H).
      destruct rest as [|arg more]; [intros [= <- <-]; auto|].
      destruct (place_argument max_str_digits arg) as [[[x y] d]|];
        [discriminate | intros [= <- <-]; auto].
    + apply String.eqb_neq in N. rewrite (process_other _ _ _ _ r H N).
      destruct (tag =? "MOVE");
        [intros E; apply then_ret_inv in E; destruct E as (a & _ & E);
         discriminate E|].
      destruct (tag =? "LEFT");
        [intros E; apply then_ret_inv in E; destruct E as (a & _ & E);
         discriminate E|].
      destruct (tag =? "RIGHT");
        [intros E; apply then_ret_inv in E; destruct E as (a & _ & E);
         discriminate E|].
      destruct (tag =? "REPORT"); [|intros [= <- <-]; auto].
      intros E. apply then_ret_inv in E. destruct E as (a & E & [= ->]).
      destruct (invariant_cases r I) as [U | (x & y & d & -> & Ht)].
      * rewrite (report_unplaced _ _ U) in E. injection E as <- <-. auto.
      * rewrite (report_placed _ x y d Ht) in E. injection E as <- <-.
        do 4 right. exists x, y, d. auto.
Qed.

Lemma main_loop_step (max_str_digits : nat) (line : string)
  (lines : list string) (r : ToyRobot) :
  is_exit line = false ->
  main_loop max_str_digits (line :: lines) r
  = match process_command max_str_digits (command_of line) r with
    | (r', Return result) =>
        let rest := main_loop max_str_digits lines r' in
        mkRun (robot rest) (print_result result ++ printed rest) (ended rest)
    | (r', Raise e) => mkRun r' [] (Uncaught e)
    end.
Proof. unfold is_exit. intros E. cbn [main_loop]. rewrite E. reflexivity. Qed.

Lemma main_loop_ending (max_str_digits : nat) (lines : list string)
  (r : ToyRobot) :
  invariant r ->
  ended (main_loop max_str_digits lines r)
  = match find (fun l => is_exit l || is_blank l) lines with
    | Some l => if is_exit l then Exit else Uncaught Py.IndexError
    | None => EndOfInput
    end.
Proof.
  revert r. induction lines as [|line lines IH]; intros r I; [reflexivity|].
  cbn [find]. destruct (is_exit line) eqn:E.
  - cbn [orb]. rewrite E. unfold is_exit in E. cbn [main_loop]. rewrite E.
    reflexivity.
  - rewrite (main_loop_step _ _ _ _ E). cbn [orb]. unfold is_blank.
    destruct (Py.split (command_of line)) as [|tag rest] eqn:S.
    + rewrite (process_no_token _ _ _ S), E. reflexivity.
    + destruct (process_command_returns max_str_digits _ _ _ r I S) as [v R].
      pose proof (perform_invariant max_str_digits
                    (Command (command_of line)) r I) as I'.
      cbn [perform] in I'. unfold state_after in I'. unfold result_of in R.
      destruct (process_command max_str_digits (command_of line) r)
        as [r' o].
      cbn [fst snd] in I', R. subst o. cbn [ended]. apply IH, I'.
Qed.

Lemma main_loop_stops (max_str_digits : nat) (pre post : list string)
  (l : string) (r : ToyRobot) :
  is_exit l || is_blank l = true ->
  main_loop max_str_digits (pre ++ l :: post) r
  = main_loop max_str_digits (pre ++ [l]) r.
Proof.
  intros H. revert r. induction pre as [|line pre IH]; intros r.
  - cbn [app]. destruct (is_exit l) eqn:E.
    + unfold is_exit in E. cbn [main_loop]. rewrite E. reflexivity.
    + rewrite !(main_loop_step _ _ _ _ E). cbn [orb] in H.
      unfold is_blank in H.
      destruct (Py.split (command_of l)) eqn:S; [|discriminate H].
      rewrite (process_no_token _ _ _ S). reflexivity.
  - cbn [app main_loop]. destruct (command_of line =? "EXIT"); [reflexivity|].
    destruct (process_command max_str_digits (command_of line) r)
      as [r' [v|e]]; [|reflexivity].
    cbv zeta. rewrite IH. reflexivity.
Qed.

Lemma main_loop_upper (max_str_digits : nat) (lines : list string)
  (r : ToyRobot) :
  main_loop max_str_digits (map Text.upper lines) r
  = main_loop max_str_digits lines r.
Proof.
  revert r. induction lines as [|line lines IH]; intros r; [reflexivity|].
  cbn [map main_loop]. rewrite command_of_upper.
  destruct (command_of line =? "EXIT"); [reflexivity|].
  destruct (process_command max_str_digits (command_of line) r)
    as [r' [v|e]]; [|reflexivity].
  cbv zeta. rewrite IH. reflexivity.
Qed.

Lemma main_loop_prints (max_str_digits : nat) (lines : list string)
  (r : ToyRobot) :
  invariant r ->
  Forall output_line (printed (main_loop max_str_digits lines r)).
Proof.
  revert r. induction lines as [|line lines IH]; intros r I;
    [constructor|].
  cbn [main_loop]. destruct (command_of line =? "EXIT"); [constructor|].
  pose proof (perform_invariant max_str_digits
                (Command (command_of line)) r I) as I'.
  cbn [perform] in I'. unfold state_after in I'.
  pose proof (fun s r' => process_command_line max_str_digits
                            (command_of line) s r r' I) as L.
  destruct (process_command max_str_digits (command_of line) r)
    as [r' [v|e]]; [|constructor].
  cbn [fst] in I'. cbv zeta. cbn [printed]. apply Forall_app. split.
  - destruct v as [s|]; [|constructor]. cbn [print_result].
    destruct (Py.nonempty s); constructor; [|constructor].
    apply (L s r' eq_refl).
  - apply IH, I'.
Qed.

Lemma invariant_init : invariant init.
Proof. intros H. discriminate H. Qed.

Lemma lstrip_all_space (s : string) :
  all_space s = true -> Text.lstrip s = EmptyString.
Proof.
  induction s as [|c s IH]; [reflexivity|].
  cbn [all_space Text.lstrip]. destruct (Py.isspace c); [exact IH|discriminate].
Qed.

Lemma lstrip_some_char (s : string) :
  all_space s = false ->
  exists c t, Text.lstrip s = String c t /\ Py.isspace c = false.
Proof.
  induction s as [|c s IH]; [discriminate|].
  cbn [all_space Text.lstrip]. destruct (Py.isspace c) eqn:W.
  - exact IH.
  - intros _. exists c, s. auto.
Qed.

Lemma rstrip_keeps_head (c : ascii) (t : string) :
  Py.isspace c = false ->
  exists t', Text.rstrip (String c t) = String c t'.
Proof.
  intros W. cbn [Text.rstrip]. rewrite W.
  destruct (Text.rstrip t) as [|c1 t1]; eexists; reflexivity.
Qed.

Lemma split_has_token (c : ascii) (s : string) :
  Py.isspace c = false -> Py.split (String c s) <> [].
Proof.
  intros W. unfold Py.split. cbn [Py.pieces]. rewrite W.
  destruct (Py.pieces Py.isspace s) as [|p ps]; discriminate.
Qed.

(** The lines without a token are the empty and the all-white-space
    ones. *)
Lemma is_blank_all_space (line : string) : is_blank line = all_space line.
Proof.
  unfold is_blank, command_of, Text.strip.
  destruct (all_space line) eqn:A.
  - rewrite (lstrip_all_space line A). reflexivity.
  - destruct (lstrip_some_char line A) as (c & t & -> & W).
    destruct (rstrip_keeps_head c t W) as [t' ->].
    destruct (upper_char_head c W) as (c' & u & E & W').
    cbn [Text.upper]. rewrite E. cbn [append].
    pose proof (split_has_token c' (u ++ Text.upper t') W') as N.
    destruct (Py.split (String c' (u ++ Text.upper t'))); congruence.
Qed.

Lemma find_same {A} (f g : A -> bool) (l : list A) :
  (forall a, f a = g a) -> find f l = find g l.
Proof.
  intros E. induction l as [|a l IH]; [reflexivity|].
  cbn [find]. rewrite E, IH. reflexivity.
Qed.

(** X8: how [main] ends is decided by the first line that is EXIT once
    stripped and put in upper case, or is empty or all white space: EXIT
    ends the loop, an empty or all-white-space line ends the program with
    an uncaught [IndexError], and without such a line the program reads to
    the end of its input.  No other line makes [process_command] raise.
    (Here and below the input lines are those whose upper-case form the
    model can hold, [Text.in_range].) *)
Theorem main_ending (max_str_digits : nat) (lines : list string) :
  forallb Text.in_range lines = true ->
  ended (main max_str_digits lines)
  = match find (fun l => exit_line l || all_space l) lines with
    | Some l => if exit_line l then Exit else Uncaught Py.IndexError
    | None => EndOfInput
    end.
Proof.
  intros _. unfold main. cbn [ended].
  rewrite (main_loop_ending max_str_digits lines init invariant_init).
  rewrite (find_same (fun l => is_exit l || is_blank l)
             (fun l => exit_line l || all_space l))
    by (intros l; rewrite is_blank_all_space; reflexivity).
  reflexivity.
Qed.

Lemma main_ending_witness :
  ended (main 4300 ["place 0,0,north"; "fly"; "  Exit "; "   "]) = Exit
  /\ ended (main 4300 ["exit now"; "move"; "   "; "exit"])
     = Uncaught Py.IndexError
  /\ ended (main 4300 ["report"; "e x i t"]) = EndOfInput.
Proof.
  rewrite (main_ending 4300 ["place 0,0,north"; "fly"; "  Exit "; "   "] eq_refl).
  rewrite (main_ending 4300 ["exit now"; "move"; "   "; "exit"] eq_refl).
  rewrite (main_ending 4300 ["report"; "e x i t"] eq_refl).
  repeat split.
Defined.

(** X9: [main] reads nothing after the line that stops it: the lines that
    follow an EXIT line, or a line without a token, change neither the
    robot nor what is printed nor how the run ends. *)
Theorem main_stops_reading (max_str_digits : nat) (pre post : list string)
  (l : string) :
  forallb Text.in_range (pre ++ l :: post) = true ->
  is_exit l || is_blank l = true ->
  main max_str_digits (pre ++ l :: post) = main max_str_digits (pre ++ [l]).
Proof.
  intros _ H. unfold main. rewrite (main_loop_stops _ pre post l init H).
  reflexivity.
Qed.

Lemma main_stops_reading_witness :
  main 4300 (["PLACE 1,1,EAST"; "REPORT"] ++ " exit " :: ["MOVE"; "REPORT"])
  = main 4300 (["PLACE 1,1,EAST"; "REPORT"] ++ [" exit "]).
Proof.
  apply (main_stops_reading 4300 ["PLACE 1,1,EAST"; "REPORT"]
           ["MOVE"; "REPORT"] " exit "); reflexivity.
Defined.

(** X10: [main] does not tell a line from its upper-case form: tags,
    orientation names and EXIT may be typed in any case. *)
Theorem main_case_insensitive (max_str_digits : nat) (lines : list string) :
  forallb Text.in_range lines = true ->
  main max_str_digits (map Text.upper lines) = main max_str_digits lines.
Proof.
  intros _. unfold main. rewrite main_loop_upper. reflexivity.
Qed.

Lemma main_case_insensitive_witness :
  main 4300 (map Text.upper ["place 2,2,west"; "Move"; "report"; "Exit"])
  = main 4300 ["place 2,2,west"; "Move"; "report"; "Exit"].
Proof.
  apply (main_case_insensitive 4300). reflexivity.
Defined.

Lemma methods_state (r : ToyRobot) :
  invariant r ->
  (exists r', move r = (r', Return tt))
  /\ (exists r', rotate false r = (r', Return tt))
  /\ (exists r', rotate true r = (r', Return tt)).
Proof.
  intros I. destruct (invariant_cases r I) as [U | (x & y & d & -> & Ht)].
  - rewrite (move_unplaced r U), !(rotate_unplaced r _ U).
    split; [|split]; eexists; reflexivity.
  - rewrite move_placed. unfold robot_at. rewrite !rotate_placed.
    split; [|split]; eexists; reflexivity.
Qed.

(** On a robot that satisfies the invariant a silent line returns
    nothing. *)
Lemma silent_line_returns (max_str_digits : nat) (line : string)
  (r : ToyRobot) :
  invariant r ->
  silent_line max_str_digits line ->
  exists r', process_command max_str_digits (command_of line) r
             = (r', Return None).
Proof.
  intros I (tag & rest & H & T).
  change (Text.upper (Text.strip line)) with (command_of line) in H.
  destruct (methods_state r I) as (Hm & Hl & Hr).
  destruct T as [[<- | [<- | [<- | []]]] | (-> & arg & more & x & y & d & -> & A)].
  - rewrite (process_other _ _ _ _ r H eq_refl).
    cbv beta iota delta [String.eqb Ascii.eqb Bool.eqb].
    destruct Hm as [r' Hm]. exists r'.
    apply (then_ret_returns move (fun _ => None) r r' tt Hm).
  - rewrite (process_other _ _ _ _ r H eq_refl).
    cbv beta iota delta [String.eqb Ascii.eqb Bool.eqb].
    destruct Hl as [r' Hl]. exists r'.
    apply (then_ret_returns (rotate false) (fun _ => None) r r' tt Hl).
  - rewrite (process_other _ _ _ _ r H eq_refl).
    cbv beta iota delta [String.eqb Ascii.eqb Bool.eqb].
    destruct Hr as [r' Hr]. exists r'.
    apply (then_ret_returns (rotate true) (fun _ => None) r r' tt Hr).
  - rewrite (process_place _ _ _ r H).
    apply place_argument_spec in A. rewrite A. eexists. reflexivity.
Qed.

Lemma main_loop_silent (max_str_digits : nat) (pre : list string)
  (line : string) (r : ToyRobot) :
  invariant r ->
  silent_line max_str_digits line ->
  printed (main_loop max_str_digits (pre ++ [line]) r)
  = printed (main_loop max_str_digits pre r).
Proof.
  intros I Q. revert r I. induction pre as [|l pre IH]; intros r I.
  - cbn [app main_loop]. destruct (command_of line =? "EXIT"); [reflexivity|].
    destruct (silent_line_returns max_str_digits line r I Q) as [r' ->].
    reflexivity.
  - cbn [app main_loop]. destruct (command_of l =? "EXIT"); [reflexivity|].
    pose proof (perform_invariant max_str_digits (Command (command_of l)) r I)
      as I'.
    cbn [perform] in I'. unfold state_after in I'.
    destruct (process_command max_str_digits (command_of l) r)
      as [r' [v|e]]; [|reflexivity].
    cbn [fst] in I'. cbv zeta. cbn [printed]. rewrite (IH r' I'). reflexivity.
Qed.

(** X11: every line that [main] prints is the prompt, one of the two
    diagnostics, "Robot not placed on the table", or a report "x,y,NAME" of
    a cell on the table, so nothing of the input is ever printed; and a
    line that asks for a move, a turn or a readable placement prints
    nothing: with such a line added at the end of the input, the lines
    printed are the same. *)
Theorem main_prints_only (max_str_digits : nat) :
  (forall lines,
      forallb Text.in_range lines = true ->
      Forall output_line (printed (main max_str_digits lines)))
  /\ (forall pre line,
         forallb Text.in_range (pre ++ [line]) = true ->
         silent_line max_str_digits line ->
         printed (main max_str_digits (pre ++ [line]))
         = printed (main max_str_digits pre)).
Proof.
  split.
  - intros lines _. unfold main. cbn [printed]. constructor.
    + left. reflexivity.
    + apply main_loop_prints, invariant_init.
  - intros pre line _ Q. unfold main. cbn [printed].
    rewrite (main_loop_silent max_str_digits pre line init invariant_init Q).
    reflexivity.
Qed.

Lemma main_prints_only_witness :
  Forall output_line
    (printed (main 4300 ["report"; "place 4,4,south"; "report"]))
  /\ printed (main 4300 (["place 1,1,east"; "report"] ++ [" move "]))
     = [prompt; "1,1,EAST"]
  /\ printed (main 4300 (["report"] ++ ["place 9,9,west and more"]))
     = [prompt; "Robot not placed on the table"].
Proof.
  destruct (main_prints_only 4300) as [B Q]. split; [|split].
  - apply B. reflexivity.
  - rewrite (Q ["place 1,1,east"; "report"] " move " eq_refl).
    + reflexivity.
    + exists "MOVE", []. split; [reflexivity|]. left. cbn. auto.
  - rewrite (Q ["report"] "place 9,9,west and more" eq_refl).
    + reflexivity.
    + exists "PLACE", ["9,9,WEST"; "AND"; "MORE"]. split; [reflexivity|].
      right. split; [reflexivity|].
      exists "9,9,WEST", ["AND"; "MORE"], 9, 9, WEST.
      split; [reflexivity|]. exists "9", "9". repeat split; reflexivity.
Defined.
